(** * LLM_CLI_HELPER: the response parser and the query handlers

    A shallow embedding of [src/cli_helper.py] and [src/web_app.py].

    Python [str] values are sequences of Unicode code points; they are
    modelled as [list N], one number per code point, so that [str.strip]
    (which knows the Unicode white space) and the substring operations
    behave as in the interpreter.  Dictionaries with literal keys are
    [gmap string _]; exceptions are an error monad. *)

From Stdlib Require Import ZArith NArith Ascii String DecimalString Lia.
From stdpp Require Import base option list strings gmap.

Open Scope N_scope.

(** ** Strings *)

Abbreviation pystr := (list N).

Module Utf8.
(** Literals are written as Rocq strings, which hold the UTF-8 bytes of
    the source text; [decode] turns them into code points. *)

Fixpoint bytes (s : string) : list N :=
  match s with
  | EmptyString => []
  | String a s' => N_of_ascii a :: bytes s'
  end.

Definition cont (b : N) : N := N.land b 63.

Fixpoint decode (bs : list N) : pystr :=
  match bs with
  | [] => []
  | b0 :: r0 =>
    if b0 <? 128 then b0 :: decode r0
    else if b0 <? 224 then
      match r0 with
      | b1 :: r1 => (N.shiftl (N.land b0 31) 6 + cont b1) :: decode r1
      | [] => []
      end
    else if b0 <? 240 then
      match r0 with
      | b1 :: b2 :: r2 =>
        (N.shiftl (N.land b0 15) 12 + N.shiftl (cont b1) 6 + cont b2)
          :: decode r2
      | _ => []
      end
    else
      match r0 with
      | b1 :: b2 :: b3 :: r3 =>
        (N.shiftl (N.land b0 7) 18 + N.shiftl (cont b1) 12
         + N.shiftl (cont b2) 6 + cont b3) :: decode r3
      | _ => []
      end
  end.
End Utf8.

Definition u (s : string) : pystr := Utf8.decode (Utf8.bytes s).

Definition LF : N := 10.

(** [str.isspace] for one code point: the table of CPython's
    [_PyUnicode_IsWhitespace]. *)
Definition isspace (c : N) : bool :=
  ((9 <=? c) && (c <=? 13)) || ((28 <=? c) && (c <=? 32))
  || (c =? 133) || (c =? 160) || (c =? 5760)
  || ((8192 <=? c) && (c <=? 8202))
  || (c =? 8232) || (c =? 8233) || (c =? 8239) || (c =? 8287)
  || (c =? 12288).

Fixpoint lstrip (s : pystr) : pystr :=
  match s with
  | c :: t => if isspace c then lstrip t else s
  | [] => []
  end.

Definition rstrip (s : pystr) : pystr := reverse (lstrip (reverse s)).

(** [s.strip()] *)
Definition strip (s : pystr) : pystr := rstrip (lstrip s).

Fixpoint startswith (p s : pystr) : bool :=
  match p, s with
  | [], _ => true
  | a :: p', b :: s' => (a =? b) && startswith p' s'
  | _ :: _, [] => false
  end.

(** [sub in s] for two strings *)
Fixpoint contains (sub s : pystr) : bool :=
  startswith sub s ||
  match s with
  | [] => false
  | _ :: t => contains sub t
  end.

(** The cut made by [s.split(sep, 1)] and [s.partition(sep)]: the text
    before and after the leftmost occurrence of [sep]. *)
Fixpoint split_at_first (sep s : pystr) : option (pystr * pystr) :=
  if startswith sep s then Some ([], drop (length sep) s)
  else match s with
       | [] => None
       | c :: t =>
         match split_at_first sep t with
         | Some (a, b) => Some (c :: a, b)
         | None => None
         end
       end.

(** [s.replace(old, new)] scans from the left and never rescans what it
    has produced; [skip] counts the characters of a match still to pass. *)
Fixpoint replace_from (old new : pystr) (skip : nat) (s : pystr) : pystr :=
  match s with
  | [] => []
  | c :: t =>
    match skip with
    | S k => replace_from old new k t
    | O =>
      if startswith old s
      then new ++ replace_from old new (length old - 1) t
      else c :: replace_from old new 0 t
    end
  end.

Definition replace (old new s : pystr) : pystr :=
  match old with
  | [] => new ++ flat_map (fun c => c :: new) s
  | _ :: _ => replace_from old new 0 s
  end.

(** Truth value of a string: non-empty. *)
Definition truthy (s : pystr) : bool :=
  match s with [] => false | _ :: _ => true end.

(** ** Markers of the reply convention *)

Definition fence : pystr := Eval vm_compute in u "```".
Definition fence_bash : pystr := Eval vm_compute in u "```bash".
Definition label_full : pystr := Eval vm_compute in u "说明：".
Definition label_half : pystr := Eval vm_compute in u "说明:".

(** ** Exceptions *)

Inductive exn_class :=
| ValueError | IndexError | KeyError | TypeError | AttributeError
| RequestException   (* requests.exceptions.RequestException and subclasses *)
| OtherException.    (* any other subclass of Exception *)

(** An exception: its class, which the handlers dispatch on, and the text
    [str(e)] gives.  The texts of the errors the interpreter raises are
    those of CPython 3.12. *)
Record exn := Exn { exn_cls : exn_class; exn_str : pystr }.

Inductive result (A : Type) :=
| Ok (a : A)
| Raise (e : exn).
Arguments Ok {A} a.
Arguments Raise {A} e.

#[global] Instance result_ret : MRet result := fun A a => Ok a.
#[global] Instance result_bind : MBind result := fun A B f m =>
  match m with
  | Ok a => f a
  | Raise e => Raise e
  end.

Definition returns {A} (m : result A) : Prop := exists a, m = Ok a.

(** [str(n)] for an integer *)
Definition str_of_Z (z : Z) : pystr :=
  Utf8.bytes (NilZero.string_of_int (Z.to_int z)).

(** ** Operations on lists of strings *)

(** [s.split(sep, 1)] *)
Definition py_split1 (sep s : pystr) : result (list pystr) :=
  match sep with
  | [] => Raise (Exn ValueError (u "empty separator"))
  | _ :: _ =>
    match split_at_first sep s with
    | Some (a, b) => Ok [a; b]
    | None => Ok [s]
    end
  end.

(** [l[i]] for a list and an index that is not negative *)
Definition py_list_item {A} (l : list A) (i : nat) : result A :=
  match l !! i with
  | Some x => Ok x
  | None => Raise (Exn IndexError (u "list index out of range"))
  end.

(** [a, b = l] *)
Definition py_unpack2 {A} (l : list A) : result (A * A) :=
  match l with
  | [a; b] => Ok (a, b)
  | _ :: _ :: _ :: _ =>
    Raise (Exn ValueError (u "too many values to unpack (expected 2)"))
  | _ =>
    Raise (Exn ValueError
             (u "not enough values to unpack (expected 2, got "
              ++ str_of_Z (Z.of_nat (length l)) ++ u ")"))
  end.

(** ** cli_helper.py: parse_response *)

(** The body shared, word for word, by the two branches of the marker
    test: cut [content] after [marker], then cut what follows at the next
    fence.  The pair is the new value of [(code_block, explanation)]; both
    stay empty when a test fails. *)
Definition extract_block (marker content : pystr) : result (pystr * pystr) :=
  parts ← py_split1 marker content;
  if (1 <? length parts)%nat then
    rest ← py_list_item parts 1;
    if contains fence rest then
      pieces ← py_split1 fence rest;
      '(code_part, text_part) ← py_unpack2 pieces;
      mret (strip code_part, strip text_part)
    else mret ([], [])
  else mret ([], []).

(** [explanation.replace("说明：", "").replace("说明:", "").strip()] *)
Definition clean_explanation (explanation : pystr) : pystr :=
  strip (replace label_half [] (replace label_full [] explanation)).

(** The dict literal of the [return] statement. *)
Definition parsed_dict (code_block explanation content : pystr)
  : gmap string pystr :=
  <["code" := code_block]>
    (<["explanation" := explanation]> (<["raw" := content]> ∅)).

Definition parse_response (content : pystr) : result (gmap string pystr) :=
  '(code_block, explanation) ←
    (if contains fence_bash content then extract_block fence_bash content
     else if contains fence content then extract_block fence content
     else mret ([], []));
  let explanation :=
    if negb (truthy code_block) && negb (truthy explanation)
    then content else explanation in
  let explanation := clean_explanation explanation in
  mret (parsed_dict code_block explanation content).

(** *** The same computation without the exceptions

    [block_of] and [found_block] are what [extract_block] and the marker
    test of [parse_response] compute once every guarded operation is
    known to succeed ([extract_block_eq], [parse_response_eq] below). *)

Definition block_of (marker content : pystr) : pystr * pystr :=
  match split_at_first marker content with
  | Some (_, rest) =>
    match split_at_first fence rest with
    | Some (code_part, text_part) => (strip code_part, strip text_part)
    | None => ([], [])
    end
  | None => ([], [])
  end.

Definition found_block (content : pystr) : pystr * pystr :=
  if contains fence_bash content then block_of fence_bash content
  else if contains fence content then block_of fence content
  else ([], []).

Definition explanation_of (content : pystr) (blk : pystr * pystr) : pystr :=
  clean_explanation
    (if negb (truthy blk.1) && negb (truthy blk.2) then content else blk.2).

(** *** The label, as the specification words it

    "Strip a known localized label prefix from the start of explanation,
    then trim surrounding whitespace." *)

Definition strip_label_prefix (e : pystr) : pystr :=
  if startswith label_full e then drop (length label_full) e
  else if startswith label_half e then drop (length label_half) e
  else e.

Definition spec_clean (e : pystr) : pystr := strip (strip_label_prefix e).

(** Neither label occurs anywhere in [s]. *)
Definition label_free (s : pystr) : bool :=
  negb (contains label_full s) && negb (contains label_half s).

(** [clear_of sep pre]: no occurrence of [sep] begins inside [pre], not
    even one that would run over the end of [pre] into a following [sep].
    In [pre ++ sep ++ suf] the leftmost occurrence of [sep] is then the one
    written out. *)
Definition clear_of (sep pre : pystr) : bool :=
  negb (contains sep (pre ++ take (length sep - 1) sep)).

Definition all_space (s : pystr) : bool := forallb isspace s.

(** *** The parser, as the specification words it

    Section 4.3 of the specification, steps 1 to 5 with its policy for an
    opener without closer: "treated as no block found for that marker type
    (falls through to the next strategy)".  Used only to compare with
    [parse_response]. *)

Definition spec_block_of (marker content : pystr) : option (pystr * pystr) :=
  match split_at_first marker content with
  | Some (_, rest) =>
    match split_at_first fence rest with
    | Some (block_body, remainder) => Some (strip block_body, strip remainder)
    | None => None
    end
  | None => None
  end.

Definition spec_found_block (content : pystr) : pystr * pystr :=
  match spec_block_of fence_bash content with
  | Some blk => blk
  | None =>
    match spec_block_of fence content with
    | Some blk => blk
    | None => ([], [])
    end
  end.

Definition spec_parse_response (content : pystr) : gmap string pystr :=
  let '(command, explanation) := spec_found_block content in
  let explanation :=
    if negb (truthy command) && negb (truthy explanation)
    then content else explanation in
  parsed_dict command (spec_clean explanation) content.

(** ** Values decoded from JSON

    What [response.json()] returns.  The keys of a decoded object are
    strings and distinct; [PFloat] carries the bits of the number, which
    nothing here looks at. *)

#[warning="-register-all"]
Inductive pyval :=
| PNone
| PBool (b : bool)
| PInt (z : Z)
| PFloat (bits : Z)
| PStr (s : pystr)
| PList (l : list pyval)
| PDict (kvs : list (pystr * pyval)).

Definition type_name (v : pyval) : pystr :=
  match v with
  | PNone => u "NoneType"
  | PBool _ => u "bool"
  | PInt _ => u "int"
  | PFloat _ => u "float"
  | PStr _ => u "str"
  | PList _ => u "list"
  | PDict _ => u "dict"
  end.

Fixpoint assoc (key : pystr) (kvs : list (pystr * pyval)) : option pyval :=
  match kvs with
  | [] => None
  | (k, v) :: kvs' => if bool_decide (k = key) then Some v else assoc key kvs'
  end.

Definition is_str (key : pystr) (v : pyval) : bool :=
  match v with
  | PStr s => bool_decide (s = key)
  | _ => false
  end.

Definition not_subscriptable {A} (v : pyval) : result A :=
  Raise (Exn TypeError
           (u "'" ++ type_name v ++ u "' object is not subscriptable")).

(** [key in v] for a string [key] *)
Definition py_in (key : pystr) (v : pyval) : result bool :=
  match v with
  | PDict kvs => Ok (bool_decide (is_Some (assoc key kvs)))
  | PList l => Ok (existsb (is_str key) l)
  | PStr s => Ok (contains key s)
  | _ =>
    Raise (Exn TypeError
             (u "argument of type '" ++ type_name v ++ u "' is not iterable"))
  end.

(** [v[key]] for one of the literal keys of the program, whose [repr] is
    the key between single quotes *)
Definition py_getitem (v : pyval) (key : pystr) : result pyval :=
  match v with
  | PDict kvs =>
    match assoc key kvs with
    | Some x => Ok x
    | None => Raise (Exn KeyError (u "'" ++ key ++ u "'"))
    end
  | PList _ =>
    Raise (Exn TypeError (u "list indices must be integers or slices, not str"))
  | PStr _ =>
    Raise (Exn TypeError (u "string indices must be integers, not 'str'"))
  | _ => not_subscriptable v
  end.

(** [v[0]] *)
Definition py_getitem0 (v : pyval) : result pyval :=
  match v with
  | PList (x :: _) => Ok x
  | PList [] => Raise (Exn IndexError (u "list index out of range"))
  | PStr (c :: _) => Ok (PStr [c])
  | PStr [] => Raise (Exn IndexError (u "string index out of range"))
  | PDict _ => Raise (Exn KeyError (u "0"))
  | _ => not_subscriptable v
  end.

(** [len(v)] *)
Definition py_len (v : pyval) : result nat :=
  match v with
  | PList l => Ok (length l)
  | PStr s => Ok (length s)
  | PDict kvs => Ok (length kvs)
  | _ =>
    Raise (Exn TypeError
             (u "object of type '" ++ type_name v ++ u "' has no len()"))
  end.

(** [v.strip()] *)
Definition py_strip (v : pyval) : result pystr :=
  match v with
  | PStr s => Ok (strip s)
  | _ =>
    Raise (Exn AttributeError
             (u "'" ++ type_name v ++ u "' object has no attribute 'strip'"))
  end.

(** ** The HTTP call

    What [requests.post] hands back: the status, the body as text, and the
    outcome of decoding it with [response.json()].  The call itself either
    returns a response or raises; the network is a function from the
    prompt sent to that outcome. *)

Record response := Response {
  status_code : Z;
  text : pystr;
  json : result pyval
}.

Abbreviation network := (pystr → result response).

(** [result['choices'][0]['message']['content']] *)
Definition choice_content (result_ : pyval) : result pyval :=
  choices ← py_getitem result_ (u "choices");
  first ← py_getitem0 choices;
  message ← py_getitem first (u "message");
  py_getitem message (u "content").

(** ** cli_helper.py: get_llm_response *)

(** The dict literal of the four error returns. *)
Definition fallback_dict (explanation : pystr) : gmap string pystr :=
  <["code" := []]> (<["explanation" := explanation]> ∅).

(** ["choices" in result and len(result["choices"]) > 0] *)
Definition choices_nonempty (result_ : pyval) : result bool :=
  has ← py_in (u "choices") result_;
  if has : bool then
    choices ← py_getitem result_ (u "choices");
    n ← py_len choices;
    mret (0 <? n)%nat
  else mret false.

(** The body of the [try] block; the lines printed on the console are
    left out. *)
Definition try_get (post : network) (prompt : pystr)
  : result (gmap string pystr) :=
  response ← post prompt;
  if negb (status_code response =? 200)%Z then
    mret (fallback_dict (u "API 请求出错，请检查 Key 或网络。"))
  else
    result_ ← json response;
    ok ← choices_nonempty result_;
    if ok : bool then
      content ← choice_content result_;
      raw_content ← py_strip content;
      parse_response raw_content
    else mret (fallback_dict (u "模型未返回有效内容。")).

(** The two handlers: [requests.exceptions.RequestException] first, then
    [Exception]. *)
Definition on_exception (e : exn) : gmap string pystr :=
  match exn_cls e with
  | RequestException => fallback_dict (u "网络连接失败。")
  | _ => fallback_dict (u "发生内部错误: " ++ exn_str e)
  end.

Definition get_llm_response (post : network) (prompt : pystr)
  : gmap string pystr :=
  match try_get post prompt with
  | Ok d => d
  | Raise e => on_exception e
  end.

(** ** cli_helper.py: handle_query *)

(** What is shown: the green command panel, the yellow explanation panel,
    or the red reply panel. *)
Inductive panel :=
| CommandPanel (code : pystr)
| ExplanationPanel (explanation : pystr)
| ReplyPanel (body : pystr).

(** [d[k]] *)
Definition py_dict_item (d : gmap string pystr) (k : string) : result pystr :=
  match d !! k with
  | Some v => Ok v
  | None => Raise (Exn KeyError (u "'" ++ Utf8.bytes k ++ u "'"))
  end.

(** [d.get(k, dflt)] *)
Definition py_dict_get (d : gmap string pystr) (k : string) (dflt : pystr)
  : pystr :=
  default dflt (d !! k).

Definition render (result_ : gmap string pystr) : result (list panel) :=
  code ← py_dict_item result_ "code";
  if truthy code then
    explanation ← py_dict_item result_ "explanation";
    if truthy explanation
    then mret [CommandPanel code; ExplanationPanel explanation]
    else mret [CommandPanel code]
  else
    explanation ← py_dict_item result_ "explanation";
    mret [ReplyPanel (if truthy explanation then explanation
                      else py_dict_get result_ "raw" [])].

Definition handle_query (post : network) (query : pystr)
  : result (list panel) :=
  render (get_llm_response post query).

(** ** cli_helper.py: ask and interactive

    The two commands are modelled by what they do in order: lines printed
    and calls of [handle_query]. *)

Inductive action :=
| Print (line : pystr)
| HandleQuery (query : pystr).

(** [sep.join(l)] *)
Fixpoint join (sep : pystr) (l : list pystr) : pystr :=
  match l with
  | [] => []
  | [x] => x
  | x :: l' => x ++ sep ++ join sep l'
  end.

(** [task] is the tuple of the remaining command-line arguments. *)
Definition ask (task : list pystr) : list action :=
  match task with
  | [] => [Print (u "[yellow]用法提示: python cli_helper.py ask <你的问题>[/yellow]")]
  | _ :: _ =>
    let user_query := join (u " ") task in
    [HandleQuery user_query]
  end.

(** What [console.input] gives: a line, or [KeyboardInterrupt] or
    [EOFError]. *)
Inductive input :=
| Line (user_input : pystr)
| Interrupt.

Definition exit_words : list pystr :=
  [u "exit"; u "quit"; u "q"; u "退出"].

Section interactive.
(** [str.lower], whose case tables are the interpreter's. *)
Variable lower : pystr → pystr.

(** The [while True] loop over the inputs the console delivers; the end of
    the input is an [EOFError]. *)
Fixpoint interactive_loop (inputs : list input) : list action :=
  match inputs with
  | [] => [Print (LF :: u "[yellow]用户中断，退出程序。[/yellow]")]
  | Interrupt :: _ => [Print (LF :: u "[yellow]用户中断，退出程序。[/yellow]")]
  | Line user_input :: inputs' =>
    if bool_decide (lower user_input ∈ exit_words)
    then [Print (u "[yellow]再见！[/yellow]")]
    else if negb (truthy (strip user_input))
    then interactive_loop inputs'
    else HandleQuery user_input :: Print [] :: interactive_loop inputs'
  end.

Definition interactive (inputs : list input) : list action :=
  Print (u "[bold green]进入交互模式[/bold green]" ++ [LF]
         ++ u "输入 'exit', 'quit' 或 'q' 退出。")
  :: interactive_loop inputs.
End interactive.

(** The queries handed to [handle_query], in order. *)
Definition dispatched (acts : list action) : list pystr :=
  omap (λ a, match a with HandleQuery q => Some q | Print _ => None end) acts.

(** ** web_app.py *)

Module web_app.

(** The function returns what the model sent, whatever its type, or a
    string that describes the failure. *)
Definition get_llm_response (post : network) (prompt : pystr) : pyval :=
  let attempt : result pyval :=
    response ← post prompt;
    if (status_code response =? 200)%Z then
      result_ ← json response;
      choice_content result_
    else
      mret (PStr (u "API 请求失败: " ++ str_of_Z (status_code response)
                  ++ u " - " ++ text response)) in
  match attempt with
  | Ok v => v
  | Raise e => PStr (u "发生错误: " ++ exn_str e)
  end.

(** *** The chat page

    Streamlit runs the script from top to bottom on every interaction;
    [st.session_state] lives on between the runs.  A run is modelled by
    the state it leaves and what it shows in the chat column (bubbles and
    the error box; the title, the caption and the sidebar are left out). *)

(** A chat message, the dict [{"role": ..., "content": ...}]. *)
Abbreviation message := (gmap string pyval).

Definition chat_message (role : pystr) (content : pyval) : message :=
  <["role" := PStr role]> (<["content" := content]> ∅).

Definition greeting : message :=
  chat_message (u "assistant")
    (PStr (u "你好！请告诉我你想执行什么操作？例如：'解压 tar.gz 文件'")).

(** [os.getenv("API_KEY")], and the sidebar field when that is missing or
    empty; the field gives a string, empty while nothing is typed. *)
Definition resolve_key (env_key : option pystr) (sidebar_input : pystr)
  : pystr :=
  match env_key with
  | Some (c :: key) => c :: key
  | _ => sidebar_input
  end.

Inductive shown :=
| Bubble (role content : pyval)   (* st.chat_message(role).write(content) *)
| ErrorBox (text : pystr).        (* st.error(text) *)

(** [msg[k]] *)
Definition msg_item (msg : message) (k : string) : result pyval :=
  match msg !! k with
  | Some v => Ok v
  | None => Raise (Exn KeyError (u "'" ++ Utf8.bytes k ++ u "'"))
  end.

(** [st.session_state.messages] *)
Definition state_messages (session_state : gmap string (list message))
  : result (list message) :=
  match session_state !! "messages" with
  | Some l => Ok l
  | None =>
    Raise (Exn AttributeError
             (u "st.session_state has no attribute 'messages'"))
  end.

(** The loop over the history. *)
Fixpoint show_history (messages : list message) : result (list shown) :=
  match messages with
  | [] => mret []
  | msg :: messages' =>
    role ← msg_item msg "role";
    content ← msg_item msg "content";
    rest ← show_history messages';
    mret (Bubble role content :: rest)
  end.

(** One run of the script, lines 68 to 93. *)
Definition script (post : network)
    (env_key : option pystr) (sidebar_input : pystr)
    (chat_input : option pystr)
    (session_state : gmap string (list message))
  : result (gmap string (list message) * list shown) :=
  let api_key := resolve_key env_key sidebar_input in
  let session_state :=
    if bool_decide (is_Some (session_state !! "messages"))
    then session_state
    else <["messages" := [greeting]]> session_state in
  messages ← state_messages session_state;
  history ← show_history messages;
  match chat_input with
  | Some (c :: p) =>
    let prompt := c :: p in
    if negb (truthy api_key) then
      mret (session_state, history ++ [ErrorBox (u "请先配置 API Key")])
    else
      let messages := messages ++ [chat_message (u "user") (PStr prompt)] in
      let response_text := get_llm_response post prompt in
      let messages :=
        messages ++ [chat_message (u "assistant") response_text] in
      mret (<["messages" := messages]> session_state,
            history ++ [Bubble (PStr (u "user")) (PStr prompt);
                        Bubble (PStr (u "assistant")) response_text])
  | _ => mret (session_state, history)
  end.

(** What one interaction brings: the key in the environment, the text of
    the sidebar field, and the prompt submitted, if any. *)
Record interaction := Interaction {
  env_key : option pystr;
  sidebar_input : pystr;
  chat_input : option pystr
}.

(** The runs of one browser session, one after the other. *)
Fixpoint session (post : network) (runs : list interaction)
    (session_state : gmap string (list message))
  : result (gmap string (list message)) :=
  match runs with
  | [] => mret session_state
  | r :: runs' =>
    '(session_state', _) ←
      script post (env_key r) (sidebar_input r) (chat_input r) session_state;
    session post runs' session_state'
  end.

(** The exchange a run adds to the history: the prompt and the answer,
    when a prompt was submitted and a key is at hand. *)
Definition exchange (post : network) (r : interaction) : list message :=
  match chat_input r with
  | Some (c :: p) =>
    if truthy (resolve_key (env_key r) (sidebar_input r))
    then [chat_message (u "user") (PStr (c :: p));
          chat_message (u "assistant") (get_llm_response post (c :: p))]
    else []
  | _ => []
  end.

(** The bubble that shows a stored message. *)
Definition bubble_of (msg : message) : option shown :=
  match msg !! "role", msg !! "content" with
  | Some role, Some content => Some (Bubble role content)
  | _, _ => None
  end.

End web_app.

(** ** Vocabulary of the claims *)

(** A decoded body with a non-empty ["choices"] list. *)
Definition has_choices (body : pyval) : bool :=
  match body with
  | PDict kvs =>
    match assoc (u "choices") kvs with
    | Some (PList (_ :: _)) => true
    | _ => false
    end
  | _ => false
  end.

(** The successful path of [get_llm_response]: status 200, a body that
    decodes, and a first choice whose content is a string. *)
Definition success (o : result response) (raw_content : pystr) : Prop :=
  ∃ r body content,
    o = Ok r ∧ status_code r = 200%Z ∧ json r = Ok body ∧
    choices_nonempty body = Ok true ∧
    choice_content body = Ok content ∧ py_strip content = Ok raw_content.

(** The error paths: a status other than 200, a body without usable
    choices, and an exception raised by the call, by the decoding or by
    the extraction of the content. *)
Inductive error_path (o : result response) : Prop :=
| Err_status r :
    o = Ok r → status_code r ≠ 200%Z → error_path o
| Err_no_choices r body :
    o = Ok r → status_code r = 200%Z → json r = Ok body →
    choices_nonempty body = Ok false → error_path o
| Err_post e :
    o = Raise e → error_path o
| Err_json r e :
    o = Ok r → status_code r = 200%Z → json r = Raise e → error_path o
| Err_test r body e :
    o = Ok r → status_code r = 200%Z → json r = Ok body →
    choices_nonempty body = Raise e → error_path o
| Err_content r body e :
    o = Ok r → status_code r = 200%Z → json r = Ok body →
    choices_nonempty body = Ok true →
    (choice_content body ≫= py_strip) = Raise e → error_path o.

(** A field of the record a computation returns, when it returns one. *)
Definition field (k : string) (r : result (gmap string pystr))
  : option pystr :=
  match r with
  | Ok d => d !! k
  | Raise _ => None
  end.

(** The lines the interactive loop reads before it stops: those in front
    of the first exit word, interrupt or end of input. *)
Fixpoint lines_until_stop (lower : pystr → pystr) (inputs : list input)
  : list pystr :=
  match inputs with
  | Line user_input :: inputs' =>
    if bool_decide (lower user_input ∈ exit_words) then []
    else user_input :: lines_until_stop lower inputs'
  | _ => []
  end.

(** ** Sample replies and networks *)

(** The well-formed reply of the specification's first scenario. *)
Definition reply_tar : pystr :=
  u "```bash" ++ [LF] ++ u "tar -xzvf file.tar.gz" ++ [LF] ++ u "```"
  ++ [LF] ++ u "说明：解压文件".

(** A well-formed reply whose explanation names the label a second time. *)
Definition reply_two_labels : pystr :=
  u "```bash" ++ [LF] ++ u "ls" ++ [LF] ++ u "```" ++ [LF]
  ++ u "说明：a说明：b".

(** Plain text with the label in the middle. *)
Definition reply_label_inside : pystr := u "详见说明：文档".

(** The opener without closer of the specification's third scenario. *)
Definition reply_unclosed : pystr := u "```bash" ++ [LF] ++ u "ls -la".

(** An untagged block followed by an unclosed tagged opener. *)
Definition reply_generic_then_unclosed : pystr := u "``` ls ```bash foo".

(** Plain text, with and without a leading label. *)
Definition reply_hello : pystr := u "你好，有什么可以帮您？".
Definition reply_labelled_text : pystr := u "说明：你好".

(** Untagged blocks: one with a command, one with nothing in or after it. *)
Definition reply_untagged : pystr :=
  u "```" ++ [LF] ++ u "ls -la" ++ [LF] ++ u "```" ++ [LF]
  ++ u "说明：列出文件".
Definition reply_blank_block : pystr := u "```" ++ [LF] ++ u "```".

(** A network that answers every prompt with status 200 and [body]. *)
Definition answers (body : pyval) : network :=
  λ _, Ok (Response 200 (u "<body>") (Ok body)).

(** A network that answers every prompt with [resp], and one on which
    every call raises [x]. *)
Definition replies (resp : response) : network := λ _, Ok resp.
Definition fails (x : exn) : network := λ _, Raise x.

(** The body of an answer whose first choice has the content [v]. *)
Definition body_with_content (v : pyval) : pyval :=
  PDict [(u "choices",
          PList [PDict [(u "message", PDict [(u "content", v)])]])].

(** * Properties *)

Example fence_codes : fence = [96; 96; 96].
Proof. reflexivity. Qed.

Example label_full_codes : label_full = [35828; 26126; 65306].
Proof. reflexivity. Qed.

Example label_half_codes : label_half = [35828; 26126; 58].
Proof. reflexivity. Qed.

(** ** Facts about the string operations *)

Section string_facts.
Implicit Types (p s t a b sub sep old new : pystr) (c : N).

Lemma startswith_spec p s : startswith p s = true ↔ ∃ t, s = p ++ t.
Proof.
  revert s. induction p as [|x p IH]; intros s; simpl.
  - split; [intros _; by exists s | done].
  - destruct s as [|y s]; simpl.
    + split; [done | intros [t Ht]; discriminate].
    + rewrite andb_true_iff, N.eqb_eq, IH. split.
      * intros [-> [t ->]]. by exists t.
      * intros [t Ht]. injection Ht as -> ->. eauto.
Qed.

Lemma startswith_app p t : startswith p (p ++ t) = true.
Proof. apply startswith_spec. by exists t. Qed.

(** Only the first [length p] characters matter. *)
Lemma startswith_app_l p a b :
  (length p ≤ length a)%nat → startswith p (a ++ b) = startswith p a.
Proof.
  revert a. induction p as [|x p IH]; intros a Hlen; [done|].
  destruct a as [|y a]; simpl in *; [lia|].
  rewrite IH by lia. done.
Qed.

Lemma contains_unfold sub s :
  contains sub s =
  startswith sub s || match s with [] => false | _ :: t => contains sub t end.
Proof. by destruct s. Qed.

Lemma contains_spec sub s :
  contains sub s = true ↔ ∃ a b, s = a ++ sub ++ b.
Proof.
  induction s as [|y s IH]; rewrite contains_unfold, orb_true_iff.
  - rewrite startswith_spec. split.
    + intros [[t Ht]|]; [|done]. by exists [], t.
    + intros [a [b Hab]]. left.
      destruct a; [by exists b | discriminate].
  - rewrite startswith_spec, IH. split.
    + intros [[t Ht]|[a [b Hab]]].
      * by exists [], t.
      * exists (y :: a), b. by rewrite Hab.
    + intros [a [b Hab]]. destruct a as [|z a]; simpl in Hab.
      * left. by exists b.
      * right. injection Hab as -> ->. by exists a, b.
Qed.

Lemma contains_app_l sub a b :
  contains sub a = true → contains sub (a ++ b) = true.
Proof.
  rewrite !contains_spec. intros (x & y & ->).
  exists x, (y ++ b). by rewrite <- !app_assoc.
Qed.

Lemma contains_app_r sub a b :
  contains sub b = true → contains sub (a ++ b) = true.
Proof.
  rewrite !contains_spec. intros (x & y & ->).
  exists (a ++ x), y. by rewrite <- !app_assoc.
Qed.

Lemma contains_false_app_l sub a b :
  contains sub (a ++ b) = false → contains sub a = false.
Proof.
  intros H. destruct (contains sub a) eqn:E; [|done].
  by rewrite (contains_app_l _ _ b E) in H.
Qed.

Lemma contains_false_app_r sub a b :
  contains sub (a ++ b) = false → contains sub b = false.
Proof.
  intros H. destruct (contains sub b) eqn:E; [|done].
  by rewrite (contains_app_r _ a _ E) in H.
Qed.

(** A string that holds [p ++ q] holds [p]. *)
Lemma contains_longer p q s :
  contains (p ++ q) s = true → contains p s = true.
Proof.
  rewrite !contains_spec. intros (x & y & ->).
  exists x, (q ++ y). by rewrite <- !app_assoc.
Qed.

Lemma split_at_first_unfold sep s :
  split_at_first sep s =
  if startswith sep s then Some ([], drop (length sep) s)
  else match s with
       | [] => None
       | c :: t =>
         match split_at_first sep t with
         | Some (a, b) => Some (c :: a, b)
         | None => None
         end
       end.
Proof. by destruct s. Qed.

Lemma split_at_first_None sep s :
  split_at_first sep s = None ↔ contains sep s = false.
Proof.
  induction s as [|y s IH];
    rewrite split_at_first_unfold, contains_unfold;
    destruct (startswith sep _); simpl; [done..|].
  rewrite <- IH. by destruct (split_at_first sep s) as [[a b]|].
Qed.

Lemma startswith_drop p s :
  startswith p s = true → s = p ++ drop (length p) s.
Proof.
  intros [t ->]%startswith_spec. by rewrite drop_app_length.
Qed.

Lemma split_at_first_Some sep s a b :
  split_at_first sep s = Some (a, b) → s = a ++ sep ++ b.
Proof.
  revert a. induction s as [|y s IH]; intros a;
    rewrite split_at_first_unfold;
    destruct (startswith sep _) eqn:E.
  - intros [= <- <-]. by apply startswith_drop.
  - done.
  - intros [= <- <-]. by apply startswith_drop.
  - destruct (split_at_first sep s) as [[a' b']|]; [|done].
    intros [= <- <-]. simpl. f_equal. by apply IH.
Qed.

Lemma split_at_first_first sep pre suf :
  sep ≠ [] → clear_of sep pre = true →
  split_at_first sep (pre ++ sep ++ suf) = Some (pre, suf).
Proof.
  intros Hsep. unfold clear_of. rewrite negb_true_iff.
  induction pre as [|y pre IH]; intros Hclear;
    rewrite split_at_first_unfold.
  - simpl. by rewrite startswith_app, drop_app_length.
  - rewrite contains_unfold in Hclear.
    apply orb_false_iff in Hclear as [Hst Hrest].
    assert (startswith sep ((y :: pre) ++ sep ++ suf) = false) as ->.
    { rewrite <- (take_drop (length sep - 1) sep) at 2.
      rewrite <- app_assoc, app_assoc.
      rewrite startswith_app_l; [done|].
      destruct sep; [done|].
      rewrite length_app, length_take. simpl. lia. }
    simpl. by rewrite IH.
Qed.

Lemma contains_sep_app sep pre suf :
  contains sep (pre ++ sep ++ suf) = true.
Proof. apply contains_spec. by exists pre, suf. Qed.

(** *** replace *)

Lemma replace_from_skip old new pre t :
  replace_from old new (length pre) (pre ++ t) = replace_from old new 0 t.
Proof.
  induction pre as [|y pre IH]; simpl; [|done].
  by destruct t.
Qed.

Lemma replace_from_absent old new s :
  contains old s = false → replace_from old new 0 s = s.
Proof.
  induction s as [|y s IH]; [done|].
  rewrite contains_unfold. intros [Hst Hrest]%orb_false_iff.
  simpl replace_from. rewrite Hst. by rewrite IH.
Qed.

Lemma replace_absent old new s :
  old ≠ [] → contains old s = false → replace old new s = s.
Proof.
  destruct old; [done|]. intros _. apply replace_from_absent.
Qed.

Lemma replace_match old new t :
  old ≠ [] → replace old new (old ++ t) = new ++ replace old new t.
Proof.
  destruct old as [|o old]; [done|]. intros _.
  unfold replace. change ((o :: old) ++ t) with (o :: (old ++ t)).
  simpl replace_from.
  assert (startswith (o :: old) (o :: old ++ t) = true) as Hst
    by apply (startswith_app (o :: old) t).
  simpl in Hst. rewrite Hst.
  replace (length old - 0)%nat with (length old) by lia.
  by rewrite replace_from_skip.
Qed.

(** *** strip *)

Lemma lstrip_all_space s : all_space s = true → lstrip s = [].
Proof.
  induction s as [|y s IH]; [done|]. simpl.
  intros [-> ?]%andb_true_iff. auto.
Qed.

Lemma lstrip_app a b :
  lstrip (a ++ b) = if all_space a then lstrip b else lstrip a ++ b.
Proof.
  induction a as [|y a IH]; [done|]. simpl.
  destruct (isspace y); simpl; [apply IH | done].
Qed.

Lemma lstrip_idemp s : lstrip (lstrip s) = lstrip s.
Proof.
  induction s as [|y s IH]; [done|]. simpl.
  destruct (isspace y) eqn:E; [done|]. simpl. by rewrite E.
Qed.

Lemma all_space_reverse s : all_space (reverse s) = all_space s.
Proof.
  unfold all_space. induction s as [|y s IH]; [done|].
  rewrite reverse_cons, forallb_app, IH. simpl.
  rewrite andb_true_r. apply andb_comm.
Qed.

Lemma rstrip_all_space s : all_space s = true → rstrip s = [].
Proof.
  intros H. unfold rstrip.
  rewrite lstrip_all_space; [done|]. by rewrite all_space_reverse.
Qed.

Lemma rstrip_app a b :
  rstrip (a ++ b) = if all_space b then rstrip a else a ++ rstrip b.
Proof.
  unfold rstrip. rewrite reverse_app, lstrip_app, all_space_reverse.
  destruct (all_space b); [done|].
  by rewrite reverse_app, reverse_involutive.
Qed.

Lemma rstrip_idemp s : rstrip (rstrip s) = rstrip s.
Proof. unfold rstrip. by rewrite reverse_involutive, lstrip_idemp. Qed.

Lemma rstrip_single c : rstrip [c] = if isspace c then [] else [c].
Proof. unfold rstrip. simpl. by destruct (isspace c). Qed.

Lemma rstrip_cons c s :
  isspace c = false → rstrip (c :: s) = c :: rstrip s.
Proof.
  intros Hc. change (c :: s) with ([c] ++ s). rewrite rstrip_app.
  destruct (all_space s) eqn:E; [|done].
  by rewrite rstrip_single, Hc, rstrip_all_space.
Qed.

Lemma lstrip_rstrip s : lstrip (rstrip s) = rstrip (lstrip s).
Proof.
  induction s as [|y s IH]; [done|].
  simpl lstrip at 2. destruct (isspace y) eqn:E.
  - change (y :: s) with ([y] ++ s). rewrite rstrip_app.
    destruct (all_space s) eqn:Es.
    + by rewrite rstrip_single, E, (lstrip_all_space s Es).
    + simpl. by rewrite E.
  - rewrite rstrip_cons by done. simpl. by rewrite E.
Qed.

Lemma strip_rstrip s : strip (rstrip s) = strip s.
Proof. unfold strip. by rewrite lstrip_rstrip, rstrip_idemp. Qed.

Lemma strip_all_space s : all_space s = true → strip s = [].
Proof. intros H. unfold strip. by rewrite lstrip_all_space. Qed.

(** A gap of white space in front is dropped; the text that follows is
    only trimmed on the right when it begins with a character that is
    not white space. *)
Lemma strip_gap gap c s :
  all_space gap = true → isspace c = false →
  strip (gap ++ c :: s) = c :: rstrip s.
Proof.
  intros Hgap Hc. unfold strip. rewrite lstrip_app, Hgap. simpl.
  rewrite Hc. by apply rstrip_cons.
Qed.
End string_facts.

(** ** Facts about the parser *)

Section parser_facts.
Implicit Types (content marker pre body post rest e t : pystr).

Lemma py_split1_ok sep s :
  sep ≠ [] →
  py_split1 sep s =
  Ok (match split_at_first sep s with
      | Some (a, b) => [a; b]
      | None => [s]
      end).
Proof.
  destruct sep; [done|]. intros _. unfold py_split1.
  by destruct (split_at_first _ s) as [[a b]|].
Qed.

Lemma bind_Ok {A B} (f : A → result B) (a : A) : (Ok a ≫= f) = f a.
Proof. done. Qed.

Lemma extract_block_eq marker content :
  marker ≠ [] → extract_block marker content = Ok (block_of marker content).
Proof.
  intros Hm. unfold extract_block, block_of.
  rewrite py_split1_ok, bind_Ok by done.
  destruct (split_at_first marker content) as [[a rest]|]; [|done].
  change (1 <? length [a; rest])%nat with true. cbv iota.
  change (py_list_item [a; rest] 1) with (Ok rest). rewrite bind_Ok.
  destruct (contains fence rest) eqn:Hin.
  - rewrite py_split1_ok, bind_Ok by done.
    destruct (split_at_first fence rest) as [[cp tp]|] eqn:Hsp; [done|].
    apply split_at_first_None in Hsp. congruence.
  - apply split_at_first_None in Hin. by rewrite Hin.
Qed.

Lemma parse_response_eq content :
  parse_response content =
  Ok (parsed_dict (found_block content).1
                  (explanation_of content (found_block content))
                  content).
Proof.
  unfold parse_response, found_block, explanation_of.
  destruct (contains fence_bash content).
  - rewrite extract_block_eq by done.
    by destruct (block_of fence_bash content).
  - destruct (contains fence content); [|done].
    rewrite extract_block_eq by done.
    by destruct (block_of fence content).
Qed.

Lemma block_of_closed marker pre body post :
  marker ≠ [] → clear_of marker pre = true → clear_of fence body = true →
  block_of marker (pre ++ marker ++ body ++ fence ++ post)
  = (strip body, strip post).
Proof.
  intros Hm Hpre Hbody. unfold block_of.
  rewrite split_at_first_first by done.
  by rewrite split_at_first_first.
Qed.

Lemma block_of_unclosed marker pre rest :
  marker ≠ [] → clear_of marker pre = true → contains fence rest = false →
  block_of marker (pre ++ marker ++ rest) = ([], []).
Proof.
  intros Hm Hpre Hrest. unfold block_of.
  rewrite split_at_first_first by done.
  apply split_at_first_None in Hrest. by rewrite Hrest.
Qed.

Lemma no_fence_no_bash content :
  contains fence content = false → contains fence_bash content = false.
Proof.
  intros H. destruct (contains fence_bash content) eqn:E; [|done].
  change fence_bash with (fence ++ u "bash") in E.
  apply contains_longer in E. congruence.
Qed.

(** *** The label *)

Lemma label_free_spec s :
  label_free s = true ↔
  contains label_full s = false ∧ contains label_half s = false.
Proof.
  unfold label_free. by rewrite andb_true_iff, !negb_true_iff.
Qed.

Lemma clean_label_free e :
  label_free e = true → clean_explanation e = strip e.
Proof.
  intros [Hf Hh]%label_free_spec. unfold clean_explanation.
  rewrite (replace_absent label_full) by done.
  by rewrite (replace_absent label_half).
Qed.

Lemma clean_label_full t :
  label_free t = true → clean_explanation (label_full ++ t) = strip t.
Proof.
  intros Ht. unfold clean_explanation.
  rewrite replace_match, app_nil_l by done.
  by apply clean_label_free.
Qed.

Lemma label_half_not_full t :
  contains label_full t = false →
  contains label_full (label_half ++ t) = false.
Proof.
  intros Ht. unfold label_half. simpl app.
  rewrite contains_unfold. change (startswith label_full (_ :: _)) with false.
  rewrite contains_unfold. change (startswith label_full (_ :: _)) with false.
  rewrite contains_unfold. change (startswith label_full (_ :: _)) with false.
  done.
Qed.

Lemma clean_label_half t :
  label_free t = true → clean_explanation (label_half ++ t) = strip t.
Proof.
  intros Ht. pose proof Ht as [Hf Hh]%label_free_spec.
  unfold clean_explanation.
  rewrite (replace_absent label_full) by (done || by apply label_half_not_full).
  rewrite replace_match, app_nil_l by done.
  by rewrite (replace_absent label_half).
Qed.

(** Where the label occurs at most once, as a prefix, the two
    [replace] calls do what the specification asks for. *)
Lemma clean_explanation_prefix e :
  label_free (strip_label_prefix e) = true →
  clean_explanation e = spec_clean e.
Proof.
  unfold spec_clean, strip_label_prefix.
  destruct (startswith label_full e) eqn:Ef.
  - apply startswith_spec in Ef as [t ->].
    rewrite drop_app_length. apply clean_label_full.
  - destruct (startswith label_half e) eqn:Eh.
    + apply startswith_spec in Eh as [t ->].
      rewrite drop_app_length. apply clean_label_half.
    + apply clean_label_free.
Qed.
End parser_facts.

(** ** The record [parse_response] returns *)

Section parsed_dict_facts.
Implicit Types (c e r : pystr).

Lemma parsed_dict_code c e r : parsed_dict c e r !! "code" = Some c.
Proof. unfold parsed_dict. by simplify_map_eq. Qed.

Lemma parsed_dict_explanation c e r :
  parsed_dict c e r !! "explanation" = Some e.
Proof. unfold parsed_dict. by simplify_map_eq. Qed.

Lemma parsed_dict_raw c e r : parsed_dict c e r !! "raw" = Some r.
Proof. unfold parsed_dict. by simplify_map_eq. Qed.

Lemma parsed_dict_dom c e r :
  dom (parsed_dict c e r) = ({["code"; "explanation"; "raw"]} : gset string).
Proof. unfold parsed_dict. rewrite !dom_insert_L. set_solver. Qed.

Lemma parsed_dict_inj c e r c' e' r' :
  parsed_dict c e r = parsed_dict c' e' r' → c = c' ∧ e = e' ∧ r = r'.
Proof.
  intros H.
  pose proof (f_equal (.!! "code") H) as Hc.
  pose proof (f_equal (.!! "explanation") H) as He.
  pose proof (f_equal (.!! "raw") H) as Hr.
  rewrite !parsed_dict_code in Hc.
  rewrite !parsed_dict_explanation in He.
  rewrite !parsed_dict_raw in Hr.
  by simplify_eq.
Qed.
End parsed_dict_facts.

Section strip_prefix_facts.
Implicit Types (s t : pystr).

Lemma lstrip_suffix s : ∃ w, s = w ++ lstrip s.
Proof.
  induction s as [|y s [w IH]]; [by exists []|]. simpl.
  destruct (isspace y).
  - exists (y :: w). simpl. by f_equal.
  - by exists [].
Qed.

Lemma rstrip_prefix s : ∃ w, s = rstrip s ++ w.
Proof.
  unfold rstrip. destruct (lstrip_suffix (reverse s)) as [w Hw].
  exists (reverse w).
  rewrite <- reverse_app, <- Hw. by rewrite reverse_involutive.
Qed.

Lemma label_free_rstrip t : label_free t = true → label_free (rstrip t) = true.
Proof.
  destruct (rstrip_prefix t) as [w Hw].
  rewrite !label_free_spec. intros [Hf Hh].
  rewrite Hw in Hf, Hh. split; by eapply contains_false_app_l.
Qed.
End strip_prefix_facts.

(** ** What the marker test finds *)

Section found_block_facts.
Implicit Types (content pre body post rest gap label text : pystr).

Lemma found_block_unfenced content :
  contains fence content = false → found_block content = ([], []).
Proof.
  intros H. unfold found_block.
  by rewrite (no_fence_no_bash _ H), H.
Qed.

Lemma found_block_tagged pre body post :
  clear_of fence_bash pre = true → clear_of fence body = true →
  found_block (pre ++ fence_bash ++ body ++ fence ++ post)
  = (strip body, strip post).
Proof.
  intros Hpre Hbody. unfold found_block.
  rewrite contains_sep_app. by apply block_of_closed.
Qed.

Lemma found_block_unclosed pre rest :
  clear_of fence_bash pre = true → contains fence rest = false →
  found_block (pre ++ fence_bash ++ rest) = ([], []).
Proof.
  intros Hpre Hrest. unfold found_block.
  rewrite contains_sep_app. by apply block_of_unclosed.
Qed.

Lemma found_block_untagged pre body post :
  contains fence_bash (pre ++ fence ++ body ++ fence ++ post) = false →
  clear_of fence pre = true → clear_of fence body = true →
  found_block (pre ++ fence ++ body ++ fence ++ post)
  = (strip body, strip post).
Proof.
  intros Hno Hpre Hbody. unfold found_block.
  rewrite Hno, contains_sep_app. by apply block_of_closed.
Qed.

Lemma explanation_of_block content code_block explanation :
  truthy code_block || truthy explanation = true →
  explanation_of content (code_block, explanation)
  = clean_explanation explanation.
Proof.
  unfold explanation_of. simpl.
  by destruct (truthy code_block), (truthy explanation).
Qed.

Lemma explanation_of_nothing content :
  explanation_of content ([], []) = clean_explanation content.
Proof. done. Qed.

Lemma strip_gap_label gap label text :
  all_space gap = true → label = label_full ∨ label = label_half →
  strip (gap ++ label ++ text) = label ++ rstrip text.
Proof.
  intros Hgap [-> | ->].
  - unfold label_full. simpl app. rewrite strip_gap by done.
    by rewrite !rstrip_cons.
  - unfold label_half. simpl app. rewrite strip_gap by done.
    by rewrite !rstrip_cons.
Qed.

Lemma clean_label label t :
  label = label_full ∨ label = label_half → label_free t = true →
  clean_explanation (label ++ t) = strip t.
Proof.
  intros [-> | ->]; [apply clean_label_full | apply clean_label_half].
Qed.

Lemma startswith_contains p s :
  startswith p s = true → contains p s = true.
Proof. intros H. by rewrite contains_unfold, H. Qed.

Lemma strip_label_prefix_free content :
  label_free content = true → strip_label_prefix content = content.
Proof.
  intros [Hf Hh]%label_free_spec. unfold strip_label_prefix.
  destruct (startswith label_full content) eqn:Ef.
  - apply startswith_contains in Ef. congruence.
  - destruct (startswith label_half content) eqn:Eh; [|done].
    apply startswith_contains in Eh. congruence.
Qed.
End found_block_facts.

Lemma clear_of_fence_bash (pre : pystr) :
  clear_of fence pre = true → clear_of fence_bash pre = true.
Proof.
  unfold clear_of. rewrite !negb_true_iff. intros Hclear.
  destruct (contains fence_bash _) eqn:E; [exfalso | done].
  apply contains_spec in E as (a & b & E).
  change (take (length fence_bash - 1) fence_bash)
    with [96; 96; 96; 98; 97; 115] in E.
  change fence_bash with (fence ++ [98; 97; 115; 104]) in E.
  change (take (length fence - 1) fence) with [96; 96] in Hclear.
  pose proof (f_equal length E) as Hlen.
  rewrite !length_app in Hlen. simpl in Hlen.
  assert (pre ++ [96; 96]
          = take (length pre + 2) (pre ++ [96; 96; 96; 98; 97; 115])) as Hcut.
  { rewrite take_app_ge by lia.
    by replace (length pre + 2 - length pre)%nat with 2%nat by lia. }
  rewrite E, <- !app_assoc in Hcut.
  rewrite take_app_ge in Hcut by lia.
  rewrite (take_app_ge fence) in Hcut by (simpl; lia).
  assert (contains fence (pre ++ [96; 96]) = true); [|congruence].
  apply contains_spec. eauto.
Qed.

(** ** The claims about [parse_response] *)

(** C6: for every input string, the ["raw"] field of the record that
    [parse_response] returns is that input, unmodified, whatever was
    extracted into the other fields. *)
Theorem raw_is_the_input (content : pystr) :
  ∃ d, parse_response content = Ok d ∧ d !! "raw" = Some content.
Proof.
  eexists. split; [apply parse_response_eq|]. apply parsed_dict_raw.
Qed.

(** C7: [parse_response] is total over arbitrary strings: every input
    yields a record with the three keys, and no input makes one of its
    guarded operations (the two splits, [parts[1]], the unpacking) raise. *)
Theorem parse_response_total (content : pystr) :
  (∃ d, parse_response content = Ok d
        ∧ dom d = ({["code"; "explanation"; "raw"]} : gset string))
  ∧ (∀ e, parse_response content ≠ Raise e).
Proof.
  rewrite parse_response_eq. split.
  - eexists. split; [done|]. apply parsed_dict_dom.
  - intros e. discriminate.
Qed.










(** C1, at the failing input: a well-formed tagged block followed by
    [说明：a说明：b].  The text after the label is [a说明：b]; the code
    returns [ab]. *)
Theorem tagged_reply_loses_inner_label :
  parse_response reply_two_labels
  = Ok (parsed_dict (u "ls") (u "ab") reply_two_labels)
  ∧ reply_two_labels
    = fence_bash ++ (LF :: u "ls" ++ [LF]) ++ fence ++ [LF]
      ++ label_full ++ u "a说明：b"
  ∧ strip (u "a说明：b") = u "a说明：b".
Proof.
  split; [vm_compute; reflexivity|]. split; reflexivity.
Qed.

(** C3, at the failing input: in [详见说明：文档] the label is not a prefix
    of the explanation, and is removed all the same. *)
Theorem label_inside_text_is_removed :
  startswith label_full reply_label_inside = false
  ∧ startswith label_half reply_label_inside = false
  ∧ parse_response reply_label_inside
    = Ok (parsed_dict [] (u "详见文档") reply_label_inside)
  ∧ spec_clean reply_label_inside = reply_label_inside.
Proof.
  split; [done|]. split; [done|]. split; [vm_compute; reflexivity|].
  reflexivity.
Qed.

(** ** What holds of the well-formed reply *)

(** For every reply made of a tagged block, closed by the next triple
    backtick, then white space, a label and a text that does not hold the
    label again: the command is the trimmed body and the explanation the
    trimmed text. *)
Theorem tagged_block_with_label (body gap label text : pystr) :
  clear_of fence body = true → all_space gap = true →
  label = label_full ∨ label = label_half →
  label_free text = true →
  parse_response (fence_bash ++ body ++ fence ++ gap ++ label ++ text)
  = Ok (parsed_dict (strip body) (strip text)
                    (fence_bash ++ body ++ fence ++ gap ++ label ++ text)).
Proof.
  intros Hbody Hgap Hlabel Htext.
  rewrite parse_response_eq.
  pose proof (found_block_tagged [] body (gap ++ label ++ text)
                eq_refl Hbody) as Hblock.
  rewrite app_nil_l in Hblock. rewrite Hblock.
  rewrite strip_gap_label by done.
  rewrite explanation_of_block.
  - simpl. rewrite clean_label by (done || by apply label_free_rstrip).
    by rewrite strip_rstrip.
  - destruct Hlabel as [-> | ->]; by rewrite orb_true_r.
Qed.

Lemma tagged_block_with_label_witness :
  parse_response reply_tar
  = Ok (parsed_dict (u "tar -xzvf file.tar.gz") (u "解压文件") reply_tar).
Proof.
  exact (tagged_block_with_label
           (LF :: u "tar -xzvf file.tar.gz" ++ [LF]) [LF] label_full
           (u "解压文件") eq_refl eq_refl (or_introl eq_refl) eq_refl).
Defined.

(** Where the label occurs at most once, as a prefix, the two [replace]
    calls of the code do what the specification asks for. *)
Theorem clean_explanation_refines_spec (explanation : pystr) :
  label_free (strip_label_prefix explanation) = true →
  clean_explanation explanation = spec_clean explanation.
Proof. apply clean_explanation_prefix. Qed.

Lemma clean_explanation_refines_spec_witness :
  clean_explanation (u "说明：解压文件") = u "解压文件".
Proof.
  exact (clean_explanation_refines_spec (u "说明：解压文件") eq_refl).
Defined.

(** ** Facts about the query handlers *)

#[local] Arguments u : simpl never.

Section handler_facts.
Implicit Types (post : network) (prompt e c r : pystr) (body : pyval).

Lemma fallback_dict_code e : fallback_dict e !! "code" = Some [].
Proof. unfold fallback_dict. by simplify_map_eq. Qed.

Lemma fallback_dict_explanation e : fallback_dict e !! "explanation" = Some e.
Proof. unfold fallback_dict. by simplify_map_eq. Qed.

Lemma fallback_dict_raw e : fallback_dict e !! "raw" = None.
Proof. unfold fallback_dict. by simplify_map_eq. Qed.

Lemma fallback_dict_dom e :
  dom (fallback_dict e) = ({["code"; "explanation"]} : gset string).
Proof. unfold fallback_dict. rewrite !dom_insert_L. set_solver. Qed.

Lemma on_exception_fallback (x : exn) :
  ∃ e, on_exception x = fallback_dict e ∧ truthy e = true.
Proof.
  unfold on_exception. destruct (exn_cls x); eexists; split; done.
Qed.

(** *** One equation for each way through [get_llm_response] *)

Lemma get_post_raises post prompt x :
  post prompt = Raise x → get_llm_response post prompt = on_exception x.
Proof. intros H. unfold get_llm_response, try_get. by rewrite H. Qed.

Lemma get_bad_status post prompt (resp : response) :
  post prompt = Ok resp → status_code resp ≠ 200%Z →
  get_llm_response post prompt
  = fallback_dict (u "API 请求出错，请检查 Key 或网络。").
Proof.
  intros H Hs. unfold get_llm_response, try_get. rewrite H, bind_Ok.
  apply Z.eqb_neq in Hs. by rewrite Hs.
Qed.

Lemma get_status_ok post prompt (resp : response) :
  post prompt = Ok resp → status_code resp = 200%Z →
  get_llm_response post prompt =
  match (result_ ← json resp;
         ok ← choices_nonempty result_;
         if ok : bool then
           content ← choice_content result_;
           raw_content ← py_strip content;
           parse_response raw_content
         else mret (fallback_dict (u "模型未返回有效内容。"))) with
  | Ok d => d
  | Raise x => on_exception x
  end.
Proof.
  intros H Hs. unfold get_llm_response, try_get. rewrite H, bind_Ok.
  apply Z.eqb_eq in Hs. by rewrite Hs.
Qed.

Lemma get_json_raises post prompt (resp : response) x :
  post prompt = Ok resp → status_code resp = 200%Z → json resp = Raise x →
  get_llm_response post prompt = on_exception x.
Proof. intros H Hs Hj. rewrite (get_status_ok _ _ _ H Hs). by rewrite Hj. Qed.

Lemma get_test_raises post prompt (resp : response) body x :
  post prompt = Ok resp → status_code resp = 200%Z → json resp = Ok body →
  choices_nonempty body = Raise x →
  get_llm_response post prompt = on_exception x.
Proof.
  intros H Hs Hj Hc. rewrite (get_status_ok _ _ _ H Hs).
  by rewrite Hj, bind_Ok, Hc.
Qed.

Lemma get_no_choices post prompt (resp : response) body :
  post prompt = Ok resp → status_code resp = 200%Z → json resp = Ok body →
  choices_nonempty body = Ok false →
  get_llm_response post prompt = fallback_dict (u "模型未返回有效内容。").
Proof.
  intros H Hs Hj Hc. rewrite (get_status_ok _ _ _ H Hs).
  by rewrite Hj, bind_Ok, Hc.
Qed.

Lemma get_content_raises post prompt (resp : response) body x :
  post prompt = Ok resp → status_code resp = 200%Z → json resp = Ok body →
  choices_nonempty body = Ok true →
  (choice_content body ≫= py_strip) = Raise x →
  get_llm_response post prompt = on_exception x.
Proof.
  intros H Hs Hj Hc Hx. rewrite (get_status_ok _ _ _ H Hs).
  rewrite Hj, bind_Ok, Hc, bind_Ok.
  destruct (choice_content body) as [content|y]; simpl in *.
  - by rewrite Hx.
  - by injection Hx as ->.
Qed.

Lemma get_success post prompt raw_content :
  success (post prompt) raw_content →
  get_llm_response post prompt
  = parsed_dict (found_block raw_content).1
                (explanation_of raw_content (found_block raw_content))
                raw_content.
Proof.
  intros (resp & body & content & H & Hs & Hj & Hc & Hcc & Hst).
  rewrite (get_status_ok _ _ _ H Hs).
  rewrite Hj, bind_Ok, Hc, bind_Ok, Hcc, bind_Ok, Hst, bind_Ok.
  by rewrite parse_response_eq.
Qed.

Lemma error_path_fallback post prompt :
  error_path (post prompt) →
  ∃ e, get_llm_response post prompt = fallback_dict e ∧ truthy e = true.
Proof.
  intros [resp H Hs | resp body H Hs Hj Hc | x H | resp x H Hs Hj
         | resp body x H Hs Hj Hc | resp body x H Hs Hj Hc Hx].
  - rewrite (get_bad_status _ _ _ H Hs). by eexists.
  - rewrite (get_no_choices _ _ _ _ H Hs Hj Hc). by eexists.
  - rewrite (get_post_raises _ _ _ H). apply on_exception_fallback.
  - rewrite (get_json_raises _ _ _ _ H Hs Hj). apply on_exception_fallback.
  - rewrite (get_test_raises _ _ _ _ _ H Hs Hj Hc).
    apply on_exception_fallback.
  - rewrite (get_content_raises _ _ _ _ _ H Hs Hj Hc Hx).
    apply on_exception_fallback.
Qed.

(** Every call takes the successful path or one of the error paths. *)
Lemma success_or_error (o : result response) :
  (∃ raw_content, success o raw_content) ∨ error_path o.
Proof.
  destruct o as [resp|x]; [|right; by eapply Err_post].
  destruct (decide (status_code resp = 200%Z)) as [Hs|Hs];
    [|right; by eapply Err_status].
  destruct (json resp) as [body|x] eqn:Hj; [|right; by eapply Err_json].
  destruct (choices_nonempty body) as [[|]|x] eqn:Hc;
    [| right; by eapply Err_no_choices | right; by eapply Err_test].
  destruct (choice_content body ≫= py_strip) as [raw|x] eqn:Hx;
    [|right; by eapply Err_content].
  left. exists raw, resp, body.
  destruct (choice_content body) as [content|y]; [|done].
  exists content. by repeat split.
Qed.

Lemma success_not_error (o : result response) raw_content :
  success o raw_content → ¬ error_path o.
Proof.
  intros (resp & body & content & H & Hs & Hj & Hc & Hcc & Hst) Herr.
  destruct Herr as [r1 H' Hs' | r1 b1 H' Hs' Hj' Hc' | x H' | r1 x H' Hs' Hj'
                   | r1 b1 x H' Hs' Hj' Hc' | r1 b1 x H' Hs' Hj' Hc' Hx];
    rewrite H in H'; [| | discriminate | | |]; injection H' as <-.
  - done.
  - rewrite Hj in Hj'. injection Hj' as <-. congruence.
  - congruence.
  - rewrite Hj in Hj'. injection Hj' as <-. congruence.
  - rewrite Hj in Hj'. injection Hj' as <-.
    rewrite Hcc, bind_Ok, Hst in Hx. discriminate.
Qed.

(** *** Rendering *)

Lemma render_fallback e : render (fallback_dict e) = Ok [ReplyPanel e].
Proof.
  unfold render, py_dict_item, py_dict_get.
  rewrite fallback_dict_code, bind_Ok. simpl truthy. cbv iota.
  rewrite fallback_dict_explanation, bind_Ok, fallback_dict_raw.
  by destruct e.
Qed.

Lemma render_parsed c e r :
  render (parsed_dict c e r) =
  Ok (if truthy c
      then if truthy e then [CommandPanel c; ExplanationPanel e]
           else [CommandPanel c]
      else [ReplyPanel (if truthy e then e else r)]).
Proof.
  unfold render, py_dict_item, py_dict_get.
  rewrite parsed_dict_code, bind_Ok, parsed_dict_explanation, parsed_dict_raw.
  by destruct c, e.
Qed.

(** *** The first choice *)

Lemma choice_content_needs_choices body (v : pyval) :
  choice_content body = Ok v → has_choices body = true.
Proof.
  unfold choice_content, has_choices.
  destruct body as [| | | | |l|kvs]; try discriminate. simpl.
  destruct (assoc (u "choices") kvs) as [choices|]; [|discriminate].
  rewrite bind_Ok.
  destruct choices as [| | | |[|ch s]|[|x l]|kvs']; try discriminate.
  done.
Qed.

Lemma no_choices_no_content body :
  has_choices body = false → ∃ x, choice_content body = Raise x.
Proof.
  intros H. destruct (choice_content body) as [v|x] eqn:E; [|by exists x].
  apply choice_content_needs_choices in E. congruence.
Qed.
End handler_facts.

(** ** The claims about the query handlers *)

(** C8, as amended: when the call returns status 200 and the decoded body
    has no non-empty ["choices"] list, neither front end raises.  The CLI
    returns the fallback record, with empty command and a non-empty
    description of the error as explanation, and shows it in the reply
    panel; the web front end returns no record but a plain string that
    describes the error. *)
Theorem missing_choices_is_reported
    (post : network) (prompt : pystr) (resp : response) (body : pyval) :
  post prompt = Ok resp → status_code resp = 200%Z → json resp = Ok body →
  has_choices body = false →
  (∃ e, get_llm_response post prompt = fallback_dict e ∧ truthy e = true
        ∧ handle_query post prompt = Ok [ReplyPanel e])
  ∧ (∃ x, web_app.get_llm_response post prompt
          = PStr (u "发生错误: " ++ exn_str x)).
Proof.
  intros H Hs Hj Hno.
  destruct (no_choices_no_content body Hno) as [x Hx]. split.
  - assert (error_path (post prompt)) as Herr.
    { destruct (choices_nonempty body) as [[|]|y] eqn:Hc.
      - eapply Err_content; [done..|]. by rewrite Hx.
      - by eapply Err_no_choices.
      - by eapply Err_test. }
    destruct (error_path_fallback _ _ Herr) as (e & He & Htrue).
    exists e. unfold handle_query. rewrite He. by rewrite render_fallback.
  - exists x. unfold web_app.get_llm_response. rewrite H, bind_Ok.
    apply Z.eqb_eq in Hs. by rewrite Hs, Hj, bind_Ok, Hx.
Qed.

Lemma missing_choices_is_reported_witness :
  (∃ e, get_llm_response (answers (PDict [])) (u "解压文件") = fallback_dict e
        ∧ truthy e = true
        ∧ handle_query (answers (PDict [])) (u "解压文件") = Ok [ReplyPanel e])
  ∧ (∃ x, web_app.get_llm_response (answers (PDict [])) (u "解压文件")
          = PStr (u "发生错误: " ++ exn_str x)).
Proof.
  exact (missing_choices_is_reported
           (answers (PDict [])) (u "解压文件")
           (Response 200 (u "<body>") (Ok (PDict []))) (PDict [])
           eq_refl eq_refl eq_refl eq_refl).
Defined.

(** C8, as stated, fails for the web front end: on status 200 with the
    body [{}] it returns a string, not a record with an empty command. *)
Lemma web_reports_with_a_string :
  has_choices (PDict []) = false
  ∧ web_app.get_llm_response (answers (PDict [])) (u "解压文件")
    = PStr (u "发生错误: 'choices'")
  ∧ (∀ kvs, web_app.get_llm_response (answers (PDict [])) (u "解压文件")
            ≠ PDict kvs).
Proof.
  split; [done|]. split; [vm_compute; reflexivity|].
  intros kvs H. vm_compute in H. discriminate.
Qed.

(** C9, at the failing input: [ask] with the single argument [""] hands
    the empty query to [handle_query], while [ask] without arguments and
    the interactive loop on an empty line hand over nothing. *)
Theorem ask_dispatches_empty_query :
  dispatched (ask [[]]) = [[]]
  ∧ dispatched (ask []) = []
  ∧ (∀ lower, dispatched (interactive lower [Line []; Interrupt]) = []).
Proof.
  split; [done|]. split; [done|]. intros lower.
  unfold interactive, dispatched. simpl.
  by destruct (bool_decide _).
Qed.


(** ** Further properties of the command line *)

(** Every query the interactive loop hands to [handle_query] holds a
    character that is not white space. *)
Theorem interactive_skips_blank_lines
    (lower : pystr → pystr) (inputs : list input) :
  Forall (λ q, truthy (strip q) = true)
         (dispatched (interactive lower inputs)).
Proof.
  unfold interactive, dispatched. simpl.
  induction inputs as [|[user_input|] inputs IH]; simpl; [constructor| |constructor].
  destruct (bool_decide _); [constructor|].
  destruct (truthy (strip user_input)) eqn:E; simpl; [|done].
  by constructor.
Qed.




(** ** More about [parse_response] *)

Lemma strip_idemp (s : pystr) : strip (strip s) = strip s.
Proof.
  unfold strip. by rewrite lstrip_rstrip, lstrip_idemp, rstrip_idemp.
Qed.

Lemma block_of_trimmed (marker content : pystr) :
  strip (block_of marker content).1 = (block_of marker content).1.
Proof.
  unfold block_of.
  destruct (split_at_first marker content) as [[a rest]|]; [|done].
  destruct (split_at_first fence rest) as [[cp tp]|]; [|done].
  apply strip_idemp.
Qed.

(** Whatever the reply, neither the command nor the explanation of the
    record begins or ends with white space. *)
Theorem parsed_fields_are_trimmed (content : pystr) :
  ∃ c e, parse_response content = Ok (parsed_dict c e content)
         ∧ strip c = c ∧ strip e = e.
Proof.
  rewrite parse_response_eq. eexists _, _. split; [done|]. split.
  - unfold found_block.
    destruct (contains fence_bash content); [apply block_of_trimmed|].
    destruct (contains fence content); [apply block_of_trimmed | done].
  - unfold explanation_of, clean_explanation. apply strip_idemp.
Qed.

Lemma block_of_command (marker content c : pystr) :
  (block_of marker content).1 = c → truthy c = true →
  ∃ pre body post,
    content = pre ++ marker ++ body ++ fence ++ post ∧ c = strip body.
Proof.
  unfold block_of.
  destruct (split_at_first marker content) as [[pre rest]|] eqn:E1;
    [|by intros <-].
  destruct (split_at_first fence rest) as [[body post]|] eqn:E2;
    [|by intros <-].
  intros <- _. exists pre, body, post.
  apply split_at_first_Some in E1, E2. by rewrite E1, E2.
Qed.

(** A command is never made up: when the record holds a non-empty command,
    the reply holds an opener (tagged or not), then a body, then a closing
    triple backtick, and the command is that body, trimmed. *)
Theorem command_comes_from_a_block (content c : pystr) :
  field "code" (parse_response content) = Some c → truthy c = true →
  ∃ marker pre body post,
    (marker = fence_bash ∨ marker = fence)
    ∧ content = pre ++ marker ++ body ++ fence ++ post ∧ c = strip body.
Proof.
  rewrite parse_response_eq. simpl. rewrite parsed_dict_code.
  intros [= Hc] Htrue. unfold found_block in Hc.
  destruct (contains fence_bash content).
  - destruct (block_of_command _ _ _ Hc Htrue) as (pre & body & post & ? & ?).
    exists fence_bash, pre, body, post. auto.
  - destruct (contains fence content).
    + destruct (block_of_command _ _ _ Hc Htrue) as (pre & body & post & ? & ?).
      exists fence, pre, body, post. auto.
    + simpl in Hc. by subst c.
Qed.

Lemma command_comes_from_a_block_witness :
  ∃ marker pre body post,
    (marker = fence_bash ∨ marker = fence)
    ∧ reply_tar = pre ++ marker ++ body ++ fence ++ post
    ∧ u "tar -xzvf file.tar.gz" = strip body.
Proof.
  exact (command_comes_from_a_block reply_tar (u "tar -xzvf file.tar.gz")
           eq_refl eq_refl).
Defined.

(** Only the first tagged block counts.  What stands before the first
    tagged opener, untagged blocks included, is dropped; the text after the
    block's closer goes to the explanation whole, further blocks included
    (cleaned of the labels and trimmed), as long as the body and that text
    are not both blank. *)
Theorem first_tagged_block_only (pre body post : pystr) :
  clear_of fence_bash pre = true → clear_of fence body = true →
  truthy (strip body) || truthy (strip post) = true →
  parse_response (pre ++ fence_bash ++ body ++ fence ++ post)
  = Ok (parsed_dict (strip body) (clean_explanation (strip post))
                    (pre ++ fence_bash ++ body ++ fence ++ post)).
Proof.
  intros Hpre Hbody Hsome.
  rewrite parse_response_eq, found_block_tagged by done.
  by rewrite explanation_of_block.
Qed.

Lemma first_tagged_block_only_witness :
  parse_response
    (u "old: ``` ls ``` new: " ++ fence_bash ++ u " pwd " ++ fence
     ++ u " or ```bash id ```")
  = Ok (parsed_dict (u "pwd") (u "or ```bash id ```")
          (u "old: ``` ls ``` new: " ++ fence_bash ++ u " pwd " ++ fence
           ++ u " or ```bash id ```")).
Proof.
  exact (first_tagged_block_only (u "old: ``` ls ``` new: ") (u " pwd ")
           (u " or ```bash id ```") eq_refl eq_refl eq_refl).
Defined.

(** A tagged block whose body is blank, with only white space after its
    closer, gives no command, and the explanation is then the whole reply,
    fences included, trimmed (for a reply that holds no label). *)
Theorem blank_block_shows_whole_reply (pre body post : pystr) :
  clear_of fence_bash pre = true → clear_of fence body = true →
  strip body = [] → strip post = [] →
  label_free (pre ++ fence_bash ++ body ++ fence ++ post) = true →
  parse_response (pre ++ fence_bash ++ body ++ fence ++ post)
  = Ok (parsed_dict [] (strip (pre ++ fence_bash ++ body ++ fence ++ post))
                    (pre ++ fence_bash ++ body ++ fence ++ post)).
Proof.
  intros Hpre Hbody Hb Hp Hfree.
  rewrite parse_response_eq, found_block_tagged by done.
  rewrite Hb, Hp, explanation_of_nothing. simpl.
  by rewrite clean_label_free.
Qed.

Lemma blank_block_shows_whole_reply_witness :
  parse_response (u "Run: " ++ fence_bash ++ [LF] ++ fence ++ [LF])
  = Ok (parsed_dict [] (u "Run: ```bash" ++ [LF] ++ u "```")
                    (u "Run: " ++ fence_bash ++ [LF] ++ fence ++ [LF])).
Proof.
  exact (blank_block_shows_whole_reply (u "Run: ") [LF] [LF]
           eq_refl eq_refl eq_refl eq_refl eq_refl).
Defined.

(** ** More about the query handlers *)

Lemma choice_content_inv (body v : pyval) :
  choice_content body = Ok v →
  ∃ kvs x l, body = PDict kvs ∧ assoc (u "choices") kvs = Some (PList (x :: l)).
Proof.
  unfold choice_content.
  destruct body as [| | | | |l|kvs]; try discriminate. simpl.
  destruct (assoc (u "choices") kvs) as [choices|] eqn:E; [|discriminate].
  rewrite bind_Ok.
  destruct choices as [| | | |[|ch s]|[|x l]|kvs']; try discriminate.
  intros _. by exists kvs, x, l.
Qed.

Lemma choice_content_test (body v : pyval) :
  choice_content body = Ok v → choices_nonempty body = Ok true.
Proof.
  intros (kvs & x & l & -> & E)%choice_content_inv.
  unfold choices_nonempty. simpl. by rewrite E.
Qed.


(** The two front ends on the same answer.  When the first choice of a
    status-200 body holds a string, the web front end returns that string
    as it is, and the CLI returns what [parse_response] makes of the
    trimmed string. *)
Theorem front_ends_on_a_string_content
    (post : network) (prompt : pystr) (resp : response) (body : pyval)
    (content : pystr) :
  post prompt = Ok resp → status_code resp = 200%Z → json resp = Ok body →
  choice_content body = Ok (PStr content) →
  web_app.get_llm_response post prompt = PStr content
  ∧ parse_response (strip content) = Ok (get_llm_response post prompt).
Proof.
  intros H Hs Hj Hc. split.
  - unfold web_app.get_llm_response. rewrite H, bind_Ok.
    apply Z.eqb_eq in Hs. by rewrite Hs, Hj, bind_Ok, Hc.
  - rewrite (get_success post prompt (strip content)).
    + apply parse_response_eq.
    + exists resp, body, (PStr content).
      repeat split; try done. by eapply choice_content_test.
Qed.

Lemma front_ends_on_a_string_content_witness :
  web_app.get_llm_response
    (answers (body_with_content (PStr ([LF] ++ reply_tar)))) (u "解压文件")
  = PStr ([LF] ++ reply_tar)
  ∧ parse_response (strip ([LF] ++ reply_tar))
    = Ok (get_llm_response
            (answers (body_with_content (PStr ([LF] ++ reply_tar))))
            (u "解压文件")).
Proof.
  exact (front_ends_on_a_string_content
           (answers (body_with_content (PStr ([LF] ++ reply_tar))))
           (u "解压文件")
           (Response 200 (u "<body>")
              (Ok (body_with_content (PStr ([LF] ++ reply_tar)))))
           (body_with_content (PStr ([LF] ++ reply_tar)))
           ([LF] ++ reply_tar)
           eq_refl eq_refl eq_refl eq_refl).
Defined.

(** A first choice whose content is not a string (null, a number, a list,
    an object): the web front end returns that value as it is; the CLI
    catches the [AttributeError] of [.strip()] and returns the fallback
    record that names the type. *)
Theorem content_that_is_no_string
    (post : network) (prompt : pystr) (resp : response) (body v : pyval) :
  post prompt = Ok resp → status_code resp = 200%Z → json resp = Ok body →
  choice_content body = Ok v → (∀ s, v ≠ PStr s) →
  web_app.get_llm_response post prompt = v
  ∧ get_llm_response post prompt
    = fallback_dict (u "发生内部错误: " ++ u "'" ++ type_name v
                     ++ u "' object has no attribute 'strip'").
Proof.
  intros H Hs Hj Hc Hv. split.
  - unfold web_app.get_llm_response. rewrite H, bind_Ok.
    apply Z.eqb_eq in Hs. by rewrite Hs, Hj, bind_Ok, Hc.
  - pose proof (choice_content_test _ _ Hc) as Ht.
    rewrite (get_content_raises _ _ _ _
               (Exn AttributeError
                  (u "'" ++ type_name v
                   ++ u "' object has no attribute 'strip'"))
               H Hs Hj Ht); [done|].
    rewrite Hc, bind_Ok. destruct v; try reflexivity. by destruct (Hv s).
Qed.

Lemma content_that_is_no_string_witness :
  web_app.get_llm_response (answers (body_with_content PNone)) (u "解压文件")
  = PNone
  ∧ get_llm_response (answers (body_with_content PNone)) (u "解压文件")
    = fallback_dict (u "发生内部错误: " ++ u "'" ++ type_name PNone
                     ++ u "' object has no attribute 'strip'").
Proof.
  refine (content_that_is_no_string
            (answers (body_with_content PNone)) (u "解压文件")
            (Response 200 (u "<body>") (Ok (body_with_content PNone)))
            (body_with_content PNone) PNone
            eq_refl eq_refl eq_refl eq_refl _).
  discriminate.
Defined.





(** ** More about the interactive loop *)


(** ** The chat page of web_app.py *)

Section chat_page_facts.
Implicit Types (post : network) (st : gmap string (list web_app.message))
  (msgs : list web_app.message) (runs : list web_app.interaction).

Lemma bubble_of_chat_message (role : pystr) (content : pyval) :
  web_app.bubble_of (web_app.chat_message role content)
  = Some (web_app.Bubble (PStr role) content).
Proof.
  unfold web_app.bubble_of, web_app.chat_message. by simplify_map_eq.
Qed.

Lemma show_history_stored msgs :
  Forall (λ m, is_Some (web_app.bubble_of m)) msgs →
  web_app.show_history msgs = Ok (omap web_app.bubble_of msgs).
Proof.
  induction 1 as [|m msgs [b Hb] _ IH]; [done|].
  simpl. rewrite Hb. unfold web_app.bubble_of in Hb.
  unfold web_app.msg_item.
  destruct (m !! "role") as [role|]; [|done].
  destruct (m !! "content") as [content|]; [|done].
  injection Hb as <-. by rewrite !bind_Ok, IH, bind_Ok.
Qed.

Lemma script_on_history post env side ci st msgs :
  st !! "messages" = Some msgs →
  Forall (λ m, is_Some (web_app.bubble_of m)) msgs →
  web_app.script post env side ci st =
  Ok (match ci with
      | Some (c :: p) =>
        if truthy (web_app.resolve_key env side)
        then (<["messages" :=
                 msgs ++ [web_app.chat_message (u "user") (PStr (c :: p));
                          web_app.chat_message (u "assistant")
                            (web_app.get_llm_response post (c :: p))]]> st,
              omap web_app.bubble_of msgs
              ++ [web_app.Bubble (PStr (u "user")) (PStr (c :: p));
                  web_app.Bubble (PStr (u "assistant"))
                    (web_app.get_llm_response post (c :: p))])
        else (st, omap web_app.bubble_of msgs
                  ++ [web_app.ErrorBox (u "请先配置 API Key")])
      | _ => (st, omap web_app.bubble_of msgs)
      end).
Proof.
  intros Hst Hstored. unfold web_app.script. cbv zeta.
  rewrite (bool_decide_eq_true_2 (is_Some (st !! "messages")))
    by (rewrite Hst; eauto).
  unfold web_app.state_messages. rewrite Hst, bind_Ok.
  rewrite show_history_stored, bind_Ok by done.
  destruct ci as [[|c p]|]; [done| |done].
  destruct (truthy _); simpl; [|done].
  by rewrite <- app_assoc.
Qed.

Lemma script_init post env side ci st :
  st !! "messages" = None →
  web_app.script post env side ci st
  = web_app.script post env side ci
      (<["messages" := [web_app.greeting]]> st).
Proof.
  intros Hst. unfold web_app.script. cbv zeta.
  rewrite (bool_decide_eq_false_2 (is_Some (st !! "messages")))
    by (rewrite Hst; by intros [? ?]).
  by rewrite (bool_decide_eq_true_2
                (is_Some (<["messages" := [web_app.greeting]]> st
                          !! "messages")))
    by (rewrite lookup_insert_eq; eauto).
Qed.

Lemma exchange_stored post (r : web_app.interaction) :
  Forall (λ m, is_Some (web_app.bubble_of m)) (web_app.exchange post r).
Proof.
  unfold web_app.exchange.
  destruct (web_app.chat_input r) as [[|c p]|]; [done| |done].
  destruct (truthy _); [|done].
  repeat constructor; rewrite bubble_of_chat_message; eauto.
Qed.

Lemma script_state post (r : web_app.interaction) st msgs :
  st !! "messages" = Some msgs →
  Forall (λ m, is_Some (web_app.bubble_of m)) msgs →
  ∃ st' out,
    web_app.script post (web_app.env_key r) (web_app.sidebar_input r)
                   (web_app.chat_input r) st = Ok (st', out)
    ∧ st' !! "messages" = Some (msgs ++ web_app.exchange post r).
Proof.
  intros Hst Hstored. rewrite (script_on_history _ _ _ _ _ _ Hst Hstored).
  unfold web_app.exchange.
  destruct (web_app.chat_input r) as [[|c p]|].
  - eexists _, _. split; [done|]. by rewrite app_nil_r.
  - destruct (truthy _); eexists _, _; (split; [done|]).
    + by rewrite lookup_insert_eq.
    + by rewrite app_nil_r.
  - eexists _, _. split; [done|]. by rewrite app_nil_r.
Qed.

Lemma session_on_history post runs st msgs :
  st !! "messages" = Some msgs →
  Forall (λ m, is_Some (web_app.bubble_of m)) msgs →
  ∃ st', web_app.session post runs st = Ok st'
         ∧ st' !! "messages"
           = Some (msgs ++ flat_map (web_app.exchange post) runs).
Proof.
  revert st msgs. induction runs as [|r runs IH]; intros st msgs Hst Hstored.
  - exists st. split; [done|]. by rewrite app_nil_r.
  - destruct (script_state post r st msgs Hst Hstored)
      as (st1 & out & Hrun & Hst1).
    destruct (IH st1 (msgs ++ web_app.exchange post r) Hst1) as (st' & Hs & Hm).
    { apply Forall_app. split; [done | apply exchange_stored]. }
    exists st'. simpl. rewrite Hrun, bind_Ok. split; [done|].
    by rewrite Hm, <- app_assoc.
Qed.
End chat_page_facts.


(** Without a key (none in the environment, nothing typed in the sidebar)
    a submitted prompt changes nothing: the run shows the history and then
    the error box, leaves the session state as it was, and does not depend
    on the network. *)
Theorem chat_without_key
    (post : network) (env : option pystr) (side : pystr) (c : N) (p : pystr)
    (st : gmap string (list web_app.message))
    (msgs : list web_app.message) :
  web_app.resolve_key env side = [] →
  st !! "messages" = Some msgs →
  Forall (λ m, is_Some (web_app.bubble_of m)) msgs →
  web_app.script post env side (Some (c :: p)) st
  = Ok (st, omap web_app.bubble_of msgs
            ++ [web_app.ErrorBox (u "请先配置 API Key")]).
Proof.
  intros Hkey Hst Hstored.
  rewrite (script_on_history _ _ _ _ _ _ Hst Hstored). by rewrite Hkey.
Qed.

Lemma chat_without_key_witness :
  web_app.script (answers PNone) (Some []) [] (Some [108; 115])
    (<["messages" := [web_app.greeting]]> ∅)
  = Ok (<["messages" := [web_app.greeting]]> ∅,
        omap web_app.bubble_of [web_app.greeting]
        ++ [web_app.ErrorBox (u "请先配置 API Key")]).
Proof.
  apply (chat_without_key (answers PNone) (Some []) [] 108 [115]
           (<["messages" := [web_app.greeting]]> ∅) [web_app.greeting]).
  - reflexivity.
  - apply lookup_insert_eq.
  - repeat constructor. unfold web_app.greeting.
    rewrite bubble_of_chat_message. eauto.
Defined.

(** With a key at hand, a submitted prompt adds exactly two messages at the
    end of the history, the prompt as typed and the answer, and what the
    run shows is the stored history, old messages first. *)
Theorem chat_shows_what_it_stores
    (post : network) (env : option pystr) (side : pystr) (c : N) (p : pystr)
    (st : gmap string (list web_app.message))
    (msgs : list web_app.message) :
  truthy (web_app.resolve_key env side) = true →
  st !! "messages" = Some msgs →
  Forall (λ m, is_Some (web_app.bubble_of m)) msgs →
  let msgs' :=
    msgs ++ [web_app.chat_message (u "user") (PStr (c :: p));
             web_app.chat_message (u "assistant")
               (web_app.get_llm_response post (c :: p))] in
  web_app.script post env side (Some (c :: p)) st
  = Ok (<["messages" := msgs']> st, omap web_app.bubble_of msgs').
Proof.
  intros Hkey Hst Hstored msgs'.
  rewrite (script_on_history _ _ _ _ _ _ Hst Hstored), Hkey.
  subst msgs'. rewrite omap_app. simpl.
  by rewrite !bubble_of_chat_message.
Qed.

Lemma chat_shows_what_it_stores_witness :
  web_app.script (answers (body_with_content (PStr reply_hello)))
    (Some (u "sk-key")) [] (Some [108; 115])
    (<["messages" := [web_app.greeting]]> ∅)
  = Ok (<["messages" :=
            [web_app.greeting] ++
            [web_app.chat_message (u "user") (PStr [108; 115]);
             web_app.chat_message (u "assistant")
               (web_app.get_llm_response
                  (answers (body_with_content (PStr reply_hello)))
                  [108; 115])]]>
          (<["messages" := [web_app.greeting]]> ∅),
        omap web_app.bubble_of
          ([web_app.greeting] ++
           [web_app.chat_message (u "user") (PStr [108; 115]);
            web_app.chat_message (u "assistant")
              (web_app.get_llm_response
                 (answers (body_with_content (PStr reply_hello)))
                 [108; 115])])).
Proof.
  apply (chat_shows_what_it_stores
           (answers (body_with_content (PStr reply_hello)))
           (Some (u "sk-key")) [] 108 [115]
           (<["messages" := [web_app.greeting]]> ∅) [web_app.greeting]).
  - reflexivity.
  - apply lookup_insert_eq.
  - repeat constructor. unfold web_app.greeting.
    rewrite bubble_of_chat_message. eauto.
Defined.
